(** * Wilson score intervals: a model of [scripts/wilson_ci.py]

    The script computes Wilson score confidence intervals for binomial
    proportions.  Its numeric core is two functions over Python floats
    (IEEE 754 binary64): [normal_quantile], Acklam's rational approximation of
    the inverse normal CDF, and [wilson_ci], the closed-form Wilson interval.
    Around them sit [parse_result] (the [Label=k/n] item parser) and [main]
    (flag handling and table rendering).

    Python floats are modelled by Rocq's primitive binary64 floats, whose
    operations are the correctly rounded IEEE ones, so every arithmetic step of
    the source is evaluated bit for bit.  Python integers are [Z].  Python
    exceptions are an explicit error result.  The one operation with no
    counterpart among the primitive floats is [math.log], which the platform's
    C library provides: it is a parameter [ln] of the model. *)

From Stdlib Require Import ZArith QArith Qabs Floats List Bool Lia Lra.
From Stdlib Require Import String Ascii DecimalString DecimalPos DecimalZ DecimalFacts.
Import ListNotations.

Set Warnings "-inexact-float".

(** ** Exceptions and results *)

(** The exceptions the script can raise.  [ValueError] is what the
    specification calls a domain error (and also what [parse_result] raises on
    a malformed item). *)
Inductive exn : Type :=
  | ValueError (msg : string)
  | OverflowError
  | ZeroDivisionError.

Inductive result (A : Type) : Type :=
  | Ok (a : A)
  | Raise (e : exn).
Arguments Ok {A} a.
Arguments Raise {A} e.

Definition bind {A B : Type} (m : result A) (f : A -> result B) : result B :=
  match m with
  | Ok a => f a
  | Raise e => Raise e
  end.

Declare Scope py_scope.
Delimit Scope py_scope with py.
Notation "x <- m ;; k" := (bind m (fun x => k))
  (at level 61, m at next level, right associativity) : py_scope.
Notation "' pat <- m ;; k" := (bind m (fun x => match x with pat => k end))
  (at level 61, pat pattern, m at next level, right associativity) : py_scope.

Definition is_ok {A : Type} (m : result A) : bool :=
  match m with Ok _ => true | Raise _ => false end.

Definition is_value_error {A : Type} (m : result A) : bool :=
  match m with Raise (ValueError _) => true | _ => false end.

(** ** Python arithmetic on floats and integers *)

Module Py.

Local Open Scope float_scope.

(** [float(n)] for a Python integer: the nearest binary64 value (ties to
    even); CPython raises [OverflowError] when that value is not finite. *)
Definition float_of_int (n : Z) : result float :=
  match binary_normalize prec emax n 0 false with
  | S754_infinity _ => Raise OverflowError
  | f => Ok (SF2Prim f)
  end.

(** [x / y] on floats: CPython raises [ZeroDivisionError] when [y == 0.0]
    (either zero) and otherwise returns the IEEE quotient. *)
Definition fdiv (x y : float) : result float :=
  if y =? 0 then Raise ZeroDivisionError else Ok (x / y).

(** [x / n] and [c * n] with a float and an integer: the integer is converted
    first. *)
Definition fdiv_int (x : float) (n : Z) : result float :=
  (y <- float_of_int n ;; fdiv x y)%py.

Definition fmul_int (c : float) (n : Z) : result float :=
  (y <- float_of_int n ;; Ok (c * y))%py.

(** [k / n] on two integers (true division): the correctly rounded quotient of
    the exact integers, whatever their size; [ZeroDivisionError] when [n = 0],
    [OverflowError] when the quotient is too large for a float. *)
Definition int_truediv (k n : Z) : result float :=
  match n with
  | Z0 => Raise ZeroDivisionError
  | _ =>
    match k with
    | Z0 => Ok (if (n <? 0)%Z then -0 else 0)
    | _ =>
      let s := xorb (k <? 0)%Z (n <? 0)%Z in
      let '(mz, ez, lz) := SFdiv_core_binary prec emax (Z.abs k) 0 (Z.abs n) 0 in
      match binary_round_aux prec emax s mz ez lz with
      | S754_infinity _ => Raise OverflowError
      | f => Ok (SF2Prim f)
      end
    end
  end.

(** [math.sqrt]: the IEEE square root, except that CPython turns a NaN
    produced from a number (a negative argument) into [ValueError]. *)
Definition math_sqrt (x : float) : result float :=
  let r := sqrt x in
  if is_nan r && negb (is_nan x) then Raise (ValueError "math domain error")
  else Ok r.

(** [math.log]: [ValueError] on zero and on negative numbers; elsewhere the
    value of the C library's [log], the parameter [ln]. *)
Definition math_log (ln : float -> float) (x : float) : result float :=
  if x <=? 0 then Raise (ValueError "math domain error") else Ok (ln x).

(** The builtins [max(a, b)] and [min(a, b)]: the first argument unless the
    second is strictly greater (smaller). *)
Definition max (a b : float) : float := if a <? b then b else a.
Definition min (a b : float) : float := if b <? a then b else a.

End Py.

(** ** The numeric core *)

Section Core.

Local Open Scope float_scope.
Local Open Scope py_scope.

(** The C library's natural logarithm. *)
Variable ln : float -> float.

(** Coefficients of the rational approximations (Acklam). *)
Definition a : list float :=
  [ -3.969683028665376e+01;
    2.209460984245205e+02;
    -2.759285104469687e+02;
    1.383577518672690e+02;
    -3.066479806614716e+01;
    2.506628277459239e+00 ].

Definition b : list float :=
  [ -5.447609879822406e+01;
    1.615858368580409e+02;
    -1.556989798598866e+02;
    6.680131188771972e+01;
    -1.328068155288572e+01 ].

Definition c : list float :=
  [ -7.784894002430293e-03;
    -3.223964580411365e-01;
    -2.400758277161838e+00;
    -2.549732539343734e+00;
    4.374664141464968e+00;
    2.938163982698783e+00 ].

Definition d : list float :=
  [ 7.784695709041462e-03;
    3.224671290700398e-01;
    2.445134137142996e+00;
    3.754408661907416e+00 ].

(** [l[i]] for an index inside the list. *)
Definition idx (l : list float) (i : nat) : float := nth i l nan.

(** Break-points. *)
Definition plow : float := 0.02425.
Definition phigh : float := 1 - plow.

(** The two polynomials of the tails, in [q]. *)
Definition tail_num (q : float) : float :=
  ((((idx c 0 * q + idx c 1) * q + idx c 2) * q + idx c 3) * q + idx c 4) * q + idx c 5.

Definition tail_den (q : float) : float :=
  (((idx d 0 * q + idx d 1) * q + idx d 2) * q + idx d 3) * q + 1.

(** The two polynomials of the central region, in [r = q * q]. *)
Definition central_num (q r : float) : float :=
  (((((idx a 0 * r + idx a 1) * r + idx a 2) * r + idx a 3) * r + idx a 4) * r + idx a 5) * q.

Definition central_den (r : float) : float :=
  ((((idx b 0 * r + idx b 1) * r + idx b 2) * r + idx b 3) * r + idx b 4) * r + 1.

(** [normal_quantile(p)]. *)
Definition normal_quantile (p : float) : result float :=
  if negb ((0 <? p) && (p <? 1)) then Raise (ValueError "p must be in (0, 1)")
  else if p <? plow then
    l <- Py.math_log ln p ;;
    q <- Py.math_sqrt (-2 * l) ;;
    Py.fdiv (tail_num q) (tail_den q)
  else if phigh <? p then
    l <- Py.math_log ln (1 - p) ;;
    q <- Py.math_sqrt (-2 * l) ;;
    Py.fdiv (- tail_num q) (tail_den q)
  else
    let q := p - 0.5 in
    let r := q * q in
    Py.fdiv (central_num q r) (central_den r).

(** [wilson_ci(k, n, conf)]. *)
Definition wilson_ci (k n : Z) (conf : float) : result (float * float) :=
  if (n <=? 0)%Z then Raise (ValueError "n must be > 0")
  else if negb ((0 <=? k)%Z && (k <=? n)%Z) then
    Raise (ValueError "k must be between 0 and n")
  else if negb ((0 <? conf) && (conf <? 1)) then
    Raise (ValueError "conf must be in (0,1)")
  else
    let alpha := 1 - conf in
    h <- Py.fdiv alpha 2 ;;
    z <- normal_quantile (1 - h) ;;
    phat <- Py.int_truediv k n ;;
    let z2 := z * z in
    t <- Py.fdiv_int z2 n ;;
    let denom := 1 + t in
    n2 <- Py.fmul_int 2 n ;;
    u <- Py.fdiv z2 n2 ;;
    center <- Py.fdiv (phat + u) denom ;;
    n4 <- Py.fmul_int 4 n ;;
    v <- Py.fdiv z2 n4 ;;
    w <- Py.fdiv_int (phat * (1 - phat) + v) n ;;
    s <- Py.math_sqrt w ;;
    half_width <- Py.fdiv (z * s) denom ;;
    let low := Py.max 0 (center - half_width) in
    let high := Py.min 1 (center + half_width) in
    Ok (low, high).

End Core.

(** ** Strings

    A Python [str] is modelled by [string], a list of characters with code
    points below 256.  On these, the Unicode whitespace that [str.strip] and
    the pattern [\s] recognise is: 9 to 13, 28 to 32, 133 and 160; the decimal
    digits of [\d] are ['0'] to ['9']. *)

Module Str.

Local Open Scope string_scope.

Definition is_space (ch : ascii) : bool :=
  let n := nat_of_ascii ch in
  ((9 <=? n) && (n <=? 13) || (28 <=? n) && (n <=? 32) || (n =? 133) || (n =? 160))%nat.

Definition is_digit (ch : ascii) : bool :=
  let n := nat_of_ascii ch in ((48 <=? n) && (n <=? 57))%nat.

Fixpoint lstrip (s : string) : string :=
  match s with
  | String ch s' => if is_space ch then lstrip s' else s
  | EmptyString => s
  end.

(** [rstrip]: drop the trailing run of whitespace. *)
Fixpoint rstrip (s : string) : string :=
  match s with
  | EmptyString => EmptyString
  | String ch s' =>
    match rstrip s' with
    | EmptyString => if is_space ch then EmptyString else String ch EmptyString
    | t => String ch t
    end
  end.

Definition strip (s : string) : string := rstrip (lstrip s).

(** [s.split(sep, 1)] when [sep in s]: the text before the first [sep] and the
    text after it; [None] when [sep] does not occur. *)
Fixpoint split_first (sep : ascii) (s : string) : option (string * string) :=
  match s with
  | EmptyString => None
  | String ch s' =>
    if Ascii.eqb ch sep then Some (EmptyString, s')
    else match split_first sep s' with
         | Some (l, r) => Some (String ch l, r)
         | None => None
         end
  end.

(** The longest prefix of characters satisfying [f], and the rest. *)
Fixpoint span (f : ascii -> bool) (s : string) : string * string :=
  match s with
  | String ch s' =>
    if f ch then let '(l, r) := span f s' in (String ch l, r) else (EmptyString, s)
  | EmptyString => (EmptyString, EmptyString)
  end.

(** [re.fullmatch(r"(\d+)\s*/\s*(\d+)", s)]: the two groups.  The character
    classes are disjoint from each other and from ['/'], so the greedy scan is
    the only way to match. *)
Definition match_fraction (s : string) : option (string * string) :=
  let '(g1, r1) := span is_digit s in
  match g1 with
  | EmptyString => None
  | _ =>
    let '(_, r2) := span is_space r1 in
    match r2 with
    | String ch r3 =>
      if Ascii.eqb ch "/" then
        let '(_, r4) := span is_space r3 in
        let '(g2, r5) := span is_digit r4 in
        match g2, r5 with
        | String _ _, EmptyString => Some (g1, g2)
        | _, _ => None
        end
      else None
    | EmptyString => None
    end
  end.

(** [int(s)] for a string of decimal digits. *)
Definition int_of_digits (s : string) : Z :=
  fold_left (fun acc ch => (10 * acc + (Z.of_nat (nat_of_ascii ch) - 48))%Z)
            (list_ascii_of_string s) 0%Z.

(** [str(n)] for an integer. *)
Definition of_int (n : Z) : string :=
  DecimalString.NilZero.string_of_int (Z.to_int n).

(** [ch * n]. *)
Fixpoint repeat (ch : ascii) (n : nat) : string :=
  match n with
  | O => EmptyString
  | S n' => String ch (repeat ch n')
  end.

(** [s.ljust(w)] and its mirror image, padding with [ch]. *)
Definition ljust (s : string) (w : nat) : string :=
  s ++ repeat " " (w - String.length s).

Definition lpad (ch : ascii) (s : string) (w : nat) : string :=
  repeat ch (w - String.length s) ++ s.

(** [sep.join(l)]. *)
Definition join (sep : string) (l : list string) : string := String.concat sep l.

End Str.

(** ** Formatting numbers *)

Module Fmt.

Local Open Scope string_scope.
Local Open Scope Z_scope.

(** [int(x)] for a float: truncation toward zero; [ValueError] on NaN and
    [OverflowError] on an infinity. *)
Definition int_of_float (x : float) : result Z :=
  match Prim2SF x with
  | S754_nan => Raise (ValueError "cannot convert float NaN to integer")
  | S754_infinity _ => Raise OverflowError
  | S754_zero _ => Ok 0
  | S754_finite s m e =>
    let v := if 0 <=? e then Z.pos m * 2 ^ e else Z.pos m / 2 ^ (- e) in
    Ok (if s then - v else v)
  end.

(** The integer nearest to [num / den] ([den > 0], [num >= 0]), ties to even. *)
Definition round_half_even (num den : Z) : Z :=
  let q := num / den in
  let r := num mod den in
  match 2 * r ?= den with
  | Lt => q
  | Gt => q + 1
  | Eq => if Z.even q then q else q + 1
  end.

(** The digits of the non-negative integer [N], read as [N / 10^d] with [d]
    decimals. *)
Definition fixed_digits (N : Z) (d : nat) : string :=
  let s := Str.lpad "0" (Str.of_int N) (S d) in
  match d with
  | O => s
  | _ =>
    let w := (String.length s - d)%nat in
    substring 0 w s ++ "." ++ substring w d s
  end.

Definition sign_str (s : bool) : string := if s then "-" else "".

(** [f"{x:.{digits}f}"]: the exact binary value of [x], correctly rounded
    (ties to even) to [digits] decimals.  The precision is written into the
    format specification as [str(digits)]: a negative one is not a valid
    specification, and one beyond [INT_MAX] is refused. *)
Definition format_fixed (x : float) (digits : Z) : result string :=
  if digits <? 0 then Raise (ValueError "Format specifier missing precision")
  else if 2147483647 <? digits then Raise (ValueError "precision too big")
  else
    let d := Z.to_nat digits in
    Ok match Prim2SF x with
       | S754_nan => "nan"
       | S754_infinity s => sign_str s ++ "inf"
       | S754_zero s => sign_str s ++ fixed_digits 0 d
       | S754_finite s m e =>
         let N := if 0 <=? e then Z.pos m * 2 ^ e * 10 ^ digits
                  else round_half_even (Z.pos m * 10 ^ digits) (2 ^ (- e)) in
         sign_str s ++ fixed_digits N d
       end.

(** [fmt_percent(x, digits)]. *)
Definition fmt_percent (x : float) (digits : Z) : result string :=
  format_fixed (x * 100)%float digits.

End Fmt.

(** ** The command line *)

(** The dataclass [Result]. *)
Record Result : Type := mkResult { label : string; k : Z; n : Z }.

Section Cli.

Local Open Scope string_scope.
Local Open Scope py_scope.

Variable ln : float -> float.

(** [parse_result(s)]. *)
Definition parse_result (s : string) : result Result :=
  let s := Str.strip s in
  match Str.split_first "=" s with
  | None => Raise (ValueError ("Missing '=' in '" ++ s ++ "'. Expected format: Label=k/n"))
  | Some (label, frac) =>
    let label := Str.strip label in
    let frac := Str.strip frac in
    match Str.match_fraction frac with
    | None =>
      Raise (ValueError ("Bad fraction '" ++ frac ++ "' in '" ++ s ++ "'. Expected k/n like 28/42"))
    | Some (g1, g2) =>
      let k := Str.int_of_digits g1 in
      let n := Str.int_of_digits g2 in
      if (n <=? 0)%Z then Raise (ValueError ("n must be > 0 in '" ++ s ++ "'"))
      else if ((k <? 0) || (n <? k))%Z then
        Raise (ValueError ("k must be in [0,n] in '" ++ s ++ "'"))
      else
        let label :=
          match label with
          | EmptyString => Str.of_int k ++ "/" ++ Str.of_int n
          | _ => label
          end in
        Ok (mkResult label k n)
    end
  end.

(** What [ap.parse_args(argv)] returns: the positional items (at least one,
    [nargs="+"]) and the four options.  The parsing itself is the [argparse]
    library's. *)
Record Namespace : Type := mkArgs {
  results : list string;
  conf : float;
  digits : Z;
  as_percent : bool;
  as_prop : bool
}.

(** What the process leaves behind: the lines printed on each stream and the
    exit status. *)
Record Outcome : Type := mkOutcome {
  stdout : list string;
  stderr : list string;
  status : Z
}.

(** [for x in l: out.append(f(x))], stopping at the first exception. *)
Fixpoint map_result {A B : Type} (f : A -> result B) (l : list A) : result (list B) :=
  match l with
  | [] => Ok []
  | x :: l' => y <- f x ;; ys <- map_result f l' ;; Ok (y :: ys)
  end.

(** The header row. *)
Definition header (args : Namespace) (use_prop : bool) : result (list string) :=
  pct <- Fmt.int_of_float (conf args * 100)%float ;;
  let ci := "Wilson " ++ Str.of_int pct ++ "% CI [low, high]" in
  Ok (if use_prop then ["Label"; "k"; "n"; "p_hat"; ci]
      else ["Label"; "k"; "n"; "%"; ci]).

(** One row of the table: the body of the loop over [parsed]. *)
Definition row (args : Namespace) (use_prop : bool) (r : Result) : result (list string) :=
  '(low, high) <- wilson_ci ln (k r) (n r) (conf args) ;;
  phat <- Py.int_truediv (k r) (n r) ;;
  if use_prop then
    p_str <- Fmt.format_fixed phat (digits args) ;;
    lo <- Fmt.format_fixed low (digits args) ;;
    hi <- Fmt.format_fixed high (digits args) ;;
    Ok [label r; Str.of_int (k r); Str.of_int (n r); p_str; "[" ++ lo ++ ", " ++ hi ++ "]"]
  else
    p_str <- Fmt.fmt_percent phat (digits args) ;;
    lo <- Fmt.fmt_percent low (digits args) ;;
    hi <- Fmt.fmt_percent high (digits args) ;;
    Ok [label r; Str.of_int (k r); Str.of_int (n r); p_str; "[" ++ lo ++ "%, " ++ hi ++ "%]"].

(** The column widths: the header's, widened by every cell. *)
Fixpoint widen (ws : list nat) (cells : list string) : list nat :=
  match ws, cells with
  | w :: ws', cell :: cells' => Nat.max w (String.length cell) :: widen ws' cells'
  | _, _ => ws
  end.

Definition col_widths (hd : list string) (rows : list (list string)) : list nat :=
  fold_left widen rows (map String.length hd).

(** [print_row]: the cells left-justified to the column widths and joined by
    two spaces. *)
Fixpoint justify (ws : list nat) (cells : list string) : list string :=
  match ws, cells with
  | w :: ws', cell :: cells' => Str.ljust cell w :: justify ws' cells'
  | _, _ => []
  end.

Definition print_row (ws : list nat) (cells : list string) : string :=
  Str.join "  " (justify ws cells).

Definition table (hd : list string) (rows : list (list string)) : list string :=
  let ws := col_widths hd rows in
  print_row ws hd :: print_row ws (map (Str.repeat "-") ws) :: map (print_row ws) rows.

(** The last line of the traceback Python prints for an uncaught exception. *)
Definition traceback (e : exn) : string :=
  match e with
  | ValueError msg => "ValueError: " ++ msg
  | OverflowError => "OverflowError"
  | ZeroDivisionError => "ZeroDivisionError"
  end.

(** The part of [main] after the flag check: parse every item, build the
    header and the rows, lay out the table. *)
Definition render (args : Namespace) : result (list string) :=
  let use_prop := as_prop args in
  parsed <- map_result parse_result (results args) ;;
  hd <- header args use_prop ;;
  rows <- map_result (row args use_prop) parsed ;;
  Ok (table hd rows).

(** [raise SystemExit(main(argv))] from the parsed arguments on: the value
    [main] returns is the exit status; an exception that escapes [main] ends
    the process with status 1 and its traceback on the error stream.  Nothing
    is printed on the output stream before the table is complete. *)
Definition main (args : Namespace) : Outcome :=
  if as_percent args && as_prop args then
    mkOutcome [] ["Error: Choose only one of --as-percent or --as-prop."] 2
  else
    match render args with
    | Ok lines => mkOutcome lines [] 0
    | Raise e => mkOutcome [] [traceback e] 1
    end.

End Cli.

(** ** Exact values of floats *)

Module Flt.

Local Open Scope Q_scope.

(** The rational number a finite float stands for (0 for the zeros, and by
    convention for the non-numbers). *)
Definition SF2Q (f : spec_float) : Q :=
  match f with
  | S754_finite s m e => inject_Z (cond_Zopp s (Z.pos m)) * Qpower 2 e
  | _ => 0
  end.

Definition to_Q (x : float) : Q := SF2Q (Prim2SF x).

End Flt.

(** ** A reference logarithm

    Where a statement needs a concrete function in place of the C library's
    [log], this one is used: argument reduction to [[sqrt(1/2), sqrt(2))] and
    the series of [2 * atanh((m - 1) / (m + 1))]. *)

Module RefLog.

Local Open Scope float_scope.

Definition ln2 : float := 0x1.62e42fefa39efp-1.
Definition sqrt_half : float := 0x1.6a09e667f3bcdp-1.

Definition of_Z (e : Z) : float := SF2Prim (binary_normalize prec emax e 0 false).

(** [2 * (t + t^3/3 + t^5/5 + ... + t^21/21)], by Horner's rule in [t * t]. *)
Definition atanh2_series (t : float) : float :=
  let w := t * t in
  2 * t * fold_left (fun acc k => 1 / k + w * acc) [19; 17; 15; 13; 11; 9; 7; 5; 3; 1] (1 / 21).

Definition ln_ref (x : float) : float :=
  if is_nan x then x
  else if x <? 0 then nan
  else if x =? 0 then neg_infinity
  else if is_infinity x then x
  else
    let '(m, e) := FloatOps.Z.frexp x in
    let '(m, e) := if m <? sqrt_half then (m * 2, (e - 1)%Z) else (m, e) in
    of_Z e * ln2 + atanh2_series ((m - 1) / (m + 1)).

End RefLog.

(** * Properties *)

(** ** Known value of the quantile *)

(** C8. [normal_quantile(0.975)] returns a number within [1e-6] of
    [1.959963985], whatever the C library's logarithm is: the argument lies in
    the central region, where the logarithm is not consulted. *)
Theorem quantile_known_value :
  forall ln : float -> float,
  exists z : float,
    normal_quantile ln 0.975 = Ok z /\
    is_finite z = true /\
    (Qabs (Flt.to_Q z - (1959963985 # 1000000000)) <= (1 # 1000000))%Q.
Proof.
  intro ln.
  exists 1.959963986120195%float.
  split; [ vm_compute; reflexivity | ].
  split; [ vm_compute; reflexivity | ].
  apply Qle_bool_iff.
  vm_compute; reflexivity.
Qed.

(** ** The output-mode flags *)

(** [render] reads [as_prop] and never [as_percent]. *)
Lemma render_ignores_as_percent :
  forall ln rs cf dg b1 b2 pr,
    render ln (mkArgs rs cf dg b1 pr) = render ln (mkArgs rs cf dg b2 pr).
Proof. reflexivity. Qed.


(** ** Comparisons of floats *)

Module FltOrd.

Local Open Scope float_scope.

Lemma ltb_leb : forall x y : float, (x <? y) = true -> (x <=? y) = true.
Proof.
  intros x y. rewrite FloatAxioms.ltb_spec, FloatAxioms.leb_spec. unfold SFltb, SFleb.
  destruct (SFcompare (Prim2SF x) (Prim2SF y)) as [[| |]|]; congruence.
Qed.

Lemma SFcompare_nan_l : forall y, SFcompare S754_nan y = None.
Proof. reflexivity. Qed.

Lemma SFcompare_nan_r : forall x, SFcompare x S754_nan = None.
Proof. intros [s|s| |s m e]; reflexivity. Qed.

Lemma SFcompare_refl : forall x, x <> S754_nan -> SFcompare x x = Some Eq.
Proof.
  intros [s|s| |s m e] H; try congruence; simpl.
  - reflexivity.
  - destruct s; reflexivity.
  - rewrite Z.compare_refl, Pos.compare_cont_refl. destruct s; reflexivity.
Qed.

Lemma is_nan_spec : forall x : float, is_nan x = true <-> Prim2SF x = S754_nan.
Proof.
  intro x. unfold is_nan. rewrite FloatAxioms.eqb_spec. unfold SFeqb.
  split.
  - intro H. destruct (Prim2SF x) as [s|s| |s m e] eqn:E; try reflexivity; exfalso.
    + rewrite (SFcompare_refl (S754_zero s)) in H; [ discriminate | congruence ].
    + rewrite (SFcompare_refl (S754_infinity s)) in H; [ discriminate | congruence ].
    + rewrite (SFcompare_refl (S754_finite s m e)) in H; [ discriminate | congruence ].
  - intros ->. reflexivity.
Qed.

Lemma nan_ltb_l : forall x y : float, is_nan x = true -> (x <? y) = false.
Proof.
  intros x y H. apply is_nan_spec in H. rewrite FloatAxioms.ltb_spec, H. reflexivity.
Qed.

Lemma nan_ltb_r : forall x y : float, is_nan y = true -> (x <? y) = false.
Proof.
  intros x y H. apply is_nan_spec in H. rewrite FloatAxioms.ltb_spec, H.
  unfold SFltb. rewrite SFcompare_nan_r. reflexivity.
Qed.

Lemma leb_not_nan : forall x y : float, (x <=? y) = true -> is_nan x = false /\ is_nan y = false.
Proof.
  intros x y H. rewrite FloatAxioms.leb_spec in H. unfold SFleb in H.
  split.
  - destruct (is_nan x) eqn:E; [ | reflexivity ].
    apply is_nan_spec in E. rewrite E in H. discriminate.
  - destruct (is_nan y) eqn:E; [ | reflexivity ].
    apply is_nan_spec in E. rewrite E, SFcompare_nan_r in H. discriminate.
Qed.

Lemma max_zero_ge : forall x : float, (0 <=? Py.max 0 x) = true.
Proof.
  intro x. unfold Py.max. destruct (0 <? x) eqn:E.
  - apply ltb_leb; assumption.
  - reflexivity.
Qed.

Lemma min_one_le : forall y : float, (Py.min 1 y <=? 1) = true.
Proof.
  intro y. unfold Py.min. destruct (y <? 1) eqn:E.
  - apply ltb_leb; assumption.
  - reflexivity.
Qed.

End FltOrd.

(** Unfold one [bind]: either its first computation raised, or it returned. *)
Ltac bind_inv H :=
  match type of H with
  | bind ?m _ = _ =>
    let E := fresh "E" in
    destruct m eqn:E; simpl in H; [ | discriminate H ]
  end.

(** ** The interval estimator: clamping and validation *)

(** X1. Whenever [wilson_ci] returns, the lower bound is a number at least 0
    and the upper bound is a number at most 1: the final [max]/[min] clamp
    even a NaN coming out of the formula (to 0 and to 1). *)
Theorem wilson_ci_clamped :
  forall ln k n conf lo hi,
    wilson_ci ln k n conf = Ok (lo, hi) ->
    (0 <=? lo)%float = true /\ (hi <=? 1)%float = true /\
    is_nan lo = false /\ is_nan hi = false.
Proof.
  intros ln k n conf lo hi H.
  unfold wilson_ci in H.
  destruct (n <=? 0)%Z; [ discriminate | ].
  destruct (negb _); [ discriminate | ].
  destruct (negb _); [ discriminate | ].
  repeat bind_inv H.
  injection H as <- <-.
  split; [ apply FltOrd.max_zero_ge | ].
  split; [ apply FltOrd.min_one_le | ].
  split.
  - exact (proj2 (FltOrd.leb_not_nan _ _ (FltOrd.max_zero_ge _))).
  - exact (proj1 (FltOrd.leb_not_nan _ _ (FltOrd.min_one_le _))).
Qed.

Lemma wilson_ci_clamped_witness :
  (0 <=? 0.51552507364533062)%float = true /\
  (0.7898753293581694 <=? 1)%float = true /\
  is_nan 0.51552507364533062 = false /\ is_nan 0.7898753293581694 = false.
Proof.
  apply (wilson_ci_clamped RefLog.ln_ref 28 42 0.95).
  vm_compute. reflexivity.
Defined.

(** More on the order of floats: antisymmetry and totality away from NaN. *)

Module FltOrd2.

Local Open Scope float_scope.

Definition opp_cmp (c : option comparison) : option comparison :=
  match c with Some c' => Some (CompOpp c') | None => None end.

Lemma SFcompare_swap : forall x y, SFcompare y x = opp_cmp (SFcompare x y).
Proof.
  intros [sx|sx| |sx mx ex] [sy|sy| |sy my ey]; simpl;
    try reflexivity; try (destruct sx; reflexivity); try (destruct sy; reflexivity);
    try (destruct sx, sy; reflexivity).
  destruct sx, sy; simpl; try reflexivity;
    rewrite (Z.compare_antisym ex ey);
    destruct (ex ?= ey)%Z; simpl; try reflexivity;
    rewrite (Pos.compare_cont_antisym mx my Eq); simpl;
    destruct (Pos.compare_cont Eq mx my); reflexivity.
Qed.

Lemma leb_ltb_false : forall x y : float, (x <=? y) = true -> (y <? x) = false.
Proof.
  intros x y. rewrite FloatAxioms.ltb_spec, FloatAxioms.leb_spec. unfold SFltb, SFleb.
  rewrite (SFcompare_swap (Prim2SF x) (Prim2SF y)).
  destruct (SFcompare (Prim2SF x) (Prim2SF y)) as [[| |]|]; simpl; congruence.
Qed.

Lemma ltb_false_inv : forall x y : float,
  (x <? y) = false -> is_nan x = true \/ is_nan y = true \/ (y <=? x) = true.
Proof.
  intros x y. rewrite FloatAxioms.ltb_spec, FloatAxioms.leb_spec. unfold SFltb, SFleb.
  rewrite (SFcompare_swap (Prim2SF x) (Prim2SF y)).
  destruct (Prim2SF x) as [sx|sx| |sx mx ex] eqn:Ex;
    try (intros _; left; apply FltOrd.is_nan_spec; assumption);
    (destruct (Prim2SF y) as [sy|sy| |sy my ey] eqn:Ey;
     try (intros _; right; left; apply FltOrd.is_nan_spec; assumption));
    (match goal with |- context [SFcompare ?u ?v] => destruct (SFcompare u v) as [[| |]|] eqn:Ec end;
     simpl; intro H; try discriminate; try (right; right; reflexivity));
    exfalso; revert Ec; simpl;
    repeat match goal with |- context [if ?s then _ else _] => destruct s end;
    try discriminate.
Qed.

End FltOrd2.

(** ** Which exceptions the numeric core raises *)

(** The exceptions of the arithmetic itself, as opposed to the three argument
    checks of [wilson_ci]. *)
Definition numeric_exn (e : exn) : Prop :=
  e = ZeroDivisionError \/ e = OverflowError \/
  e = ValueError "math domain error" \/ e = ValueError "p must be in (0, 1)".

Lemma fdiv_raise : forall x y e, Py.fdiv x y = Raise e -> e = ZeroDivisionError.
Proof.
  intros x y e. unfold Py.fdiv. destruct (y =? 0)%float; congruence.
Qed.

Lemma float_of_int_raise : forall n e, Py.float_of_int n = Raise e -> e = OverflowError.
Proof.
  intros n e. unfold Py.float_of_int.
  destruct (binary_normalize prec emax n 0 false); congruence.
Qed.

Lemma fdiv_int_raise : forall x n e,
  Py.fdiv_int x n = Raise e -> e = ZeroDivisionError \/ e = OverflowError.
Proof.
  intros x n e. unfold Py.fdiv_int.
  destruct (Py.float_of_int n) eqn:E; simpl.
  - intro H. left. eapply fdiv_raise; eassumption.
  - intro H. injection H as <-. right. eapply float_of_int_raise; eassumption.
Qed.

Lemma fmul_int_raise : forall x n e, Py.fmul_int x n = Raise e -> e = OverflowError.
Proof.
  intros x n e. unfold Py.fmul_int.
  destruct (Py.float_of_int n) eqn:E; simpl.
  - discriminate.
  - intro H. injection H as <-. eapply float_of_int_raise; eassumption.
Qed.

Lemma int_truediv_raise : forall k n e,
  Py.int_truediv k n = Raise e -> e = ZeroDivisionError \/ e = OverflowError.
Proof.
  intros k n e. unfold Py.int_truediv.
  destruct n; [ intro H; injection H as <-; left; reflexivity | | ];
    (destruct k; [ discriminate | | ]);
    destruct (SFdiv_core_binary _ _ _ _ _ _) as [[mz ez] lz];
    destruct (binary_round_aux _ _ _ _ _ _); try discriminate;
    intro H; injection H as <-; right; reflexivity.
Qed.

Lemma math_sqrt_raise : forall x e,
  Py.math_sqrt x = Raise e -> e = ValueError "math domain error".
Proof.
  intros x e. unfold Py.math_sqrt. destruct (_ && _); congruence.
Qed.

Lemma math_log_raise : forall ln x e,
  Py.math_log ln x = Raise e -> e = ValueError "math domain error".
Proof.
  intros ln x e. unfold Py.math_log. destruct (x <=? 0)%float; congruence.
Qed.

(** Split a [bind] that raised: the exception is its first computation's, or
    the rest's. *)
Ltac raise_inv H :=
  match type of H with
  | bind ?m _ = Raise _ =>
    let E := fresh "E" in
    destruct m eqn:E; simpl in H; [ | injection H as H; try subst ]
  end.

Lemma normal_quantile_raise : forall ln p e,
  normal_quantile ln p = Raise e -> numeric_exn e.
Proof.
  intros ln p e. unfold normal_quantile, numeric_exn.
  destruct (negb _).
  - intro H. injection H as <-. tauto.
  - destruct (p <? plow)%float; [ | destruct (phigh <? p)%float ]; intro H.
    + raise_inv H; [ raise_inv H | ].
      * apply fdiv_raise in H. tauto.
      * apply math_sqrt_raise in E0. tauto.
      * apply math_log_raise in E. tauto.
    + raise_inv H; [ raise_inv H | ].
      * apply fdiv_raise in H. tauto.
      * apply math_sqrt_raise in E0. tauto.
      * apply math_log_raise in E. tauto.
    + apply fdiv_raise in H. tauto.
Qed.

(** After the three argument checks, [wilson_ci] raises arithmetic exceptions
    only. *)
Lemma wilson_ci_raise_aux : forall ln k n conf e,
  (n <=? 0)%Z = false ->
  ((0 <=? k)%Z && (k <=? n)%Z) = true ->
  ((0 <? conf) && (conf <? 1))%float = true ->
  wilson_ci ln k n conf = Raise e ->
  numeric_exn e.
Proof.
  intros ln k n conf e Hn Hk Hc. unfold wilson_ci.
  rewrite Hn, Hk, Hc. simpl negb. cbv iota.
  intro H.
  repeat raise_inv H;
    try discriminate;
    repeat match goal with
    | E : Py.fdiv _ _ = Raise _ |- _ => apply fdiv_raise in E
    | E : Py.fdiv_int _ _ = Raise _ |- _ => apply fdiv_int_raise in E
    | E : Py.fmul_int _ _ = Raise _ |- _ => apply fmul_int_raise in E
    | E : Py.int_truediv _ _ = Raise _ |- _ => apply int_truediv_raise in E
    | E : Py.math_sqrt _ = Raise _ |- _ => apply math_sqrt_raise in E
    | E : normal_quantile _ _ = Raise _ |- _ => apply normal_quantile_raise in E
    end;
    unfold numeric_exn in *; tauto.
Qed.

(** X2. [normal_quantile] raises its domain error ["p must be in (0, 1)"]
    exactly when the argument is NaN, at most 0, or at least 1. *)
Theorem normal_quantile_domain_error :
  forall ln p,
    normal_quantile ln p = Raise (ValueError "p must be in (0, 1)") <->
    is_nan p = true \/ (p <=? 0)%float = true \/ (1 <=? p)%float = true.
Proof.
  intros ln p. split.
  - intro H. unfold normal_quantile in H.
    destruct (0 <? p)%float eqn:E0; [ destruct (p <? 1)%float eqn:E1 | ].
    + exfalso. simpl in H.
      destruct (p <? plow)%float; [ | destruct (phigh <? p)%float ].
      * raise_inv H; [ raise_inv H | ].
        -- apply fdiv_raise in H. discriminate.
        -- apply math_sqrt_raise in E2. discriminate.
        -- apply math_log_raise in E. discriminate.
      * raise_inv H; [ raise_inv H | ].
        -- apply fdiv_raise in H. discriminate.
        -- apply math_sqrt_raise in E2. discriminate.
        -- apply math_log_raise in E. discriminate.
      * apply fdiv_raise in H. discriminate.
    + destruct (FltOrd2.ltb_false_inv _ _ E1) as [Hn|[Hn|Hle]]; [ tauto | | tauto ].
      vm_compute in Hn. discriminate.
    + destruct (FltOrd2.ltb_false_inv _ _ E0) as [Hn|[Hn|Hle]]; [ | tauto | tauto ].
      vm_compute in Hn. discriminate.
  - intro H. unfold normal_quantile.
    assert (Hc : ((0 <? p) && (p <? 1))%float = false).
    { destruct H as [H|[H|H]].
      - rewrite (FltOrd.nan_ltb_r _ _ H). reflexivity.
      - rewrite (FltOrd2.leb_ltb_false _ _ H). reflexivity.
      - rewrite (FltOrd2.leb_ltb_false _ _ H). apply andb_false_r. }
    rewrite Hc. reflexivity.
Qed.

(** X3. The three argument errors of [wilson_ci] and when each is raised:
    ["n must be > 0"] exactly when [n <= 0]; ["k must be between 0 and n"]
    exactly when [n > 0] and [k] is outside [[0, n]]; ["conf must be in (0,1)"]
    exactly when [n] and [k] are valid and [conf] is NaN, at most 0 or at
    least 1.  The checks come in that order, before any arithmetic. *)
Theorem wilson_ci_argument_errors :
  forall ln k n conf,
    (wilson_ci ln k n conf = Raise (ValueError "n must be > 0") <-> (n <= 0)%Z) /\
    (wilson_ci ln k n conf = Raise (ValueError "k must be between 0 and n") <->
       (0 < n)%Z /\ (k < 0 \/ n < k)%Z) /\
    (wilson_ci ln k n conf = Raise (ValueError "conf must be in (0,1)") <->
       (0 < n)%Z /\ (0 <= k <= n)%Z /\
       (is_nan conf = true \/ (conf <=? 0)%float = true \/ (1 <=? conf)%float = true)).
Proof.
  intros ln k n conf.
  assert (Hnum : forall e, numeric_exn e ->
            e <> ValueError "n must be > 0" /\
            e <> ValueError "k must be between 0 and n" /\
            e <> ValueError "conf must be in (0,1)").
  { intros e [ -> | [ -> | [ -> | -> ] ] ]; repeat split; discriminate. }
  assert (Hconf : ((0 <? conf) && (conf <? 1))%float = false <->
            is_nan conf = true \/ (conf <=? 0)%float = true \/ (1 <=? conf)%float = true).
  { split.
    - intro H. apply andb_false_iff in H. destruct H as [H|H].
      + destruct (FltOrd2.ltb_false_inv _ _ H) as [Hn|[Hn|Hle]]; [ | tauto | tauto ].
        vm_compute in Hn. discriminate.
      + destruct (FltOrd2.ltb_false_inv _ _ H) as [Hn|[Hn|Hle]]; [ tauto | | tauto ].
        vm_compute in Hn. discriminate.
    - intros [H|[H|H]].
      + rewrite (FltOrd.nan_ltb_r _ _ H). reflexivity.
      + rewrite (FltOrd2.leb_ltb_false _ _ H). reflexivity.
      + rewrite (FltOrd2.leb_ltb_false _ _ H). apply andb_false_r. }
  pose proof (wilson_ci_raise_aux ln k n conf) as Hr.
  unfold wilson_ci.
  destruct (n <=? 0)%Z eqn:En.
  { apply Z.leb_le in En.
    repeat split; intros; try lia; try discriminate; try tauto. }
  apply Z.leb_gt in En.
  destruct ((0 <=? k)%Z && (k <=? n)%Z) eqn:Ek; simpl negb; cbv iota.
  2:{ apply andb_false_iff in Ek.
      assert (k < 0 \/ n < k)%Z by (destruct Ek as [Ek|Ek]; [ left | right ]; apply Z.leb_gt; assumption).
      repeat split; intros; try lia; try discriminate; try tauto. }
  apply andb_true_iff in Ek. destruct Ek as [Ek1 Ek2].
  apply Z.leb_le in Ek1. apply Z.leb_le in Ek2.
  destruct ((0 <? conf) && (conf <? 1))%float eqn:Ec; simpl negb; cbv iota.
  2:{ pose proof (proj1 Hconf eq_refl) as Hd.
      repeat split; intros; try lia; try discriminate; try tauto. }
  specialize (fun e => Hr e eq_refl eq_refl eq_refl).
  unfold wilson_ci in Hr.
  rewrite (proj2 (Z.leb_gt n 0) En) in Hr.
  rewrite (proj2 (Z.leb_le 0 k) Ek1), (proj2 (Z.leb_le k n) Ek2), Ec in Hr.
  simpl negb in Hr. cbv iota in Hr.
  assert (Hno : ~ (is_nan conf = true \/ (conf <=? 0)%float = true \/ (1 <=? conf)%float = true)).
  { intro H. apply Hconf in H. discriminate. }
  repeat split; intros; try lia; try tauto;
    exfalso;
    match goal with
    | H : _ = Raise _ |- _ =>
      apply Hr in H; apply Hnum in H; tauto
    end.
Qed.

(** X4. With valid arguments ([n > 0], [0 <= k <= n], [0 < conf < 1]) a call
    of [wilson_ci] that fails raises one of the arithmetic exceptions:
    [ZeroDivisionError], [OverflowError], the ["math domain error"] of
    [math.sqrt] and [math.log], or the quantile's ["p must be in (0, 1)"]; it
    never reports an argument error of its own. *)
Theorem wilson_ci_numeric_errors :
  forall ln k n conf e,
    (0 < n)%Z -> (0 <= k <= n)%Z ->
    (0 <? conf)%float = true -> (conf <? 1)%float = true ->
    wilson_ci ln k n conf = Raise e ->
    numeric_exn e.
Proof.
  intros ln k n conf e Hn [Hk1 Hk2] H0 H1.
  apply wilson_ci_raise_aux.
  - apply Z.leb_gt; assumption.
  - apply andb_true_iff; split; apply Z.leb_le; assumption.
  - rewrite H0, H1; reflexivity.
Qed.

(** The witness is the largest double below 1: there [1 - (1 - conf) / 2]
    rounds to 1 and the quantile refuses it. *)
Lemma wilson_ci_numeric_errors_witness :
  numeric_exn (ValueError "p must be in (0, 1)").
Proof.
  apply (wilson_ci_numeric_errors RefLog.ln_ref 1 1 0x1.fffffffffffffp-1%float);
    [ lia | lia | reflexivity | reflexivity | vm_compute; reflexivity ].
Defined.

Local Open Scope string_scope.

(** ** Strings: scanning and splitting *)

Module StrFacts.

(** Every character of [s] satisfies [f]. *)
Fixpoint all (f : ascii -> bool) (s : string) : bool :=
  match s with
  | EmptyString => true
  | String ch s' => f ch && all f s'
  end.

(** [s] does not begin with a character satisfying [f]. *)
Definition stops (f : ascii -> bool) (s : string) : bool :=
  match s with
  | EmptyString => true
  | String ch _ => negb (f ch)
  end.

Lemma all_app : forall f s t, all f (s ++ t) = all f s && all f t.
Proof.
  intros f s t. induction s as [|ch s IH]; simpl; [ reflexivity | ].
  rewrite IH. apply andb_assoc.
Qed.

Lemma span_spec : forall f s l r,
  Str.span f s = (l, r) -> s = l ++ r /\ all f l = true /\ stops f r = true.
Proof.
  intros f s. induction s as [|ch s IH]; intros l r H; simpl in H.
  - injection H as <- <-. auto.
  - destruct (f ch) eqn:E.
    + destruct (Str.span f s) as [l' r'] eqn:E'.
      injection H as <- <-.
      destruct (IH _ _ eq_refl) as [H1 [H2 H3]].
      simpl. rewrite E, H2. subst s. auto.
    + injection H as <- <-. repeat split. simpl. rewrite E. reflexivity.
Qed.

Lemma span_app : forall f l r,
  all f l = true -> stops f r = true -> Str.span f (l ++ r) = (l, r).
Proof.
  intros f l r Hl Hr. induction l as [|ch l IH]; simpl in *.
  - destruct r as [|ch r]; [ reflexivity | ].
    simpl in Hr. apply negb_true_iff in Hr. simpl. rewrite Hr. reflexivity.
  - apply andb_true_iff in Hl. destruct Hl as [H1 H2].
    rewrite H1, (IH H2). reflexivity.
Qed.

Lemma split_first_spec : forall sep s l r,
  Str.split_first sep s = Some (l, r) ->
  s = l ++ String sep r /\ all (fun ch => negb (Ascii.eqb ch sep)) l = true.
Proof.
  intros sep s. induction s as [|ch s IH]; intros l r H; simpl in H.
  - discriminate.
  - destruct (Ascii.eqb ch sep) eqn:E.
    + injection H as <- <-. apply Ascii.eqb_eq in E. subst ch. auto.
    + destruct (Str.split_first sep s) as [[l' r']|] eqn:E'; [ | discriminate ].
      injection H as <- <-.
      destruct (IH _ _ eq_refl) as [H1 H2].
      simpl. rewrite E, H2. subst s. auto.
Qed.

Lemma split_first_none : forall sep s,
  Str.split_first sep s = None <-> all (fun ch => negb (Ascii.eqb ch sep)) s = true.
Proof.
  intros sep s. induction s as [|ch s IH]; simpl.
  - tauto.
  - destruct (Ascii.eqb ch sep) eqn:E; simpl.
    + split; discriminate.
    + destruct (Str.split_first sep s) as [[l' r']|] eqn:E'.
      * split; [ discriminate | ]. intro H. apply IH in H. discriminate.
      * split; [ intros _; apply IH; reflexivity | reflexivity ].
Qed.


(** Whitespace and the other character classes. *)
Definition space := all Str.is_space.
Definition digits := all Str.is_digit.

Lemma digit_not_space : forall ch, Str.is_digit ch = true -> Str.is_space ch = false.
Proof.
  intros [[] [] [] [] [] [] [] []]; vm_compute; congruence.
Qed.

Lemma lstrip_span : forall s, Str.lstrip s = snd (Str.span Str.is_space s).
Proof.
  induction s as [|ch s IH]; simpl; [ reflexivity | ].
  destruct (Str.is_space ch); [ | reflexivity ].
  rewrite IH. destruct (Str.span Str.is_space s); reflexivity.
Qed.

Lemma lstrip_app : forall w s, space w = true -> Str.lstrip (w ++ s) = Str.lstrip s.
Proof.
  intros w s H. induction w as [|ch w IH]; simpl in *; [ reflexivity | ].
  apply andb_true_iff in H. destruct H as [H1 H2]. rewrite H1. auto.
Qed.


Lemma lstrip_is_stopped : forall s, stops Str.is_space (Str.lstrip s) = true.
Proof.
  induction s as [|ch s IH]; simpl; [ reflexivity | ].
  destruct (Str.is_space ch) eqn:E; [ assumption | ].
  simpl. rewrite E. reflexivity.
Qed.

Lemma lstrip_space : forall w, space w = true -> Str.lstrip w = "".
Proof.
  induction w as [|ch w IH]; simpl; intro H; [ reflexivity | ].
  apply andb_true_iff in H. destruct H as [H1 H2]. rewrite H1. auto.
Qed.

(** [s] does not end with whitespace. *)
Fixpoint ends_ok (s : string) : bool :=
  match s with
  | EmptyString => true
  | String ch EmptyString => negb (Str.is_space ch)
  | String _ s' => ends_ok s'
  end.

Lemma rstrip_space : forall w, space w = true -> Str.rstrip w = "".
Proof.
  induction w as [|ch w IH]; simpl; intro H; [ reflexivity | ].
  apply andb_true_iff in H. destruct H as [H1 H2].
  rewrite (IH H2), H1. reflexivity.
Qed.

Lemma rstrip_app : forall s w, space w = true -> Str.rstrip (s ++ w) = Str.rstrip s.
Proof.
  intros s w H. induction s as [|ch s IH]; simpl.
  - apply rstrip_space; assumption.
  - rewrite IH. reflexivity.
Qed.


Lemma rstrip_is_ok : forall s, ends_ok (Str.rstrip s) = true.
Proof.
  induction s as [|ch s IH]; simpl; [ reflexivity | ].
  destruct (Str.rstrip s) as [|ch' t] eqn:E.
  - destruct (Str.is_space ch) eqn:E'; simpl; [ reflexivity | ].
    rewrite E'. reflexivity.
  - exact IH.
Qed.

Lemma rstrip_keeps_start : forall s,
  stops Str.is_space s = true -> stops Str.is_space (Str.rstrip s) = true.
Proof.
  intros [|ch s] H; simpl in *; [ reflexivity | ].
  destruct (Str.rstrip s).
  - apply negb_true_iff in H. rewrite H. simpl. rewrite H. reflexivity.
  - simpl. assumption.
Qed.

Lemma ends_ok_app : forall s t, t <> "" -> ends_ok t = true -> ends_ok (s ++ t) = true.
Proof.
  intros s t Ht H. induction s as [|ch s IH]; simpl; [ assumption | ].
  destruct (s ++ t) as [|ch' u] eqn:E; [ | assumption ].
  destruct s; simpl in E; [ congruence | discriminate ].
Qed.

Lemma digits_ends_ok : forall g, digits g = true -> ends_ok g = true.
Proof.
  induction g as [|ch g IH]; simpl; intro H; [ reflexivity | ].
  apply andb_true_iff in H. destruct H as [H1 H2].
  destruct g; [ rewrite (digit_not_space _ H1); reflexivity | auto ].
Qed.

End StrFacts.

Import StrFacts.

Lemma lstrip_empty_space : forall s, Str.lstrip s = "" -> space s = true.
Proof.
  induction s as [|ch s IH]; simpl; intro H; [ reflexivity | ].
  destruct (Str.is_space ch) eqn:E; [ | discriminate ].
  unfold space in *. simpl. rewrite E. auto.
Qed.

Lemma lstrip_app_r : forall s t, Str.lstrip s <> "" -> Str.lstrip (s ++ t) = Str.lstrip s ++ t.
Proof.
  induction s as [|ch s IH]; simpl; intros t H; [ congruence | ].
  destruct (Str.is_space ch); [ auto | reflexivity ].
Qed.

Lemma strip_app : forall w1 s w2,
  space w1 = true -> space w2 = true -> Str.strip (w1 ++ s ++ w2) = Str.strip s.
Proof.
  intros w1 s w2 H1 H2. unfold Str.strip.
  rewrite (lstrip_app w1 _ H1).
  destruct (Str.lstrip s) as [|ch t] eqn:E.
  - apply lstrip_empty_space in E.
    rewrite lstrip_space; [ reflexivity | ].
    unfold space in *. rewrite all_app, E, H2. reflexivity.
  - rewrite lstrip_app_r by congruence.
    rewrite E. apply rstrip_app; assumption.
Qed.

(** ** The item parser *)

(** X5. [parse_result] ignores whitespace around the item: with any
    whitespace added in front and behind, the outcome (the parsed [Result], or
    the exception with its message) is the same. *)
Theorem parse_result_ignores_outer_space :
  forall w1 s w2,
    space w1 = true -> space w2 = true ->
    parse_result (w1 ++ s ++ w2) = parse_result s.
Proof.
  intros w1 s w2 H1 H2. unfold parse_result.
  rewrite (strip_app w1 s w2 H1 H2). reflexivity.
Qed.

Lemma parse_result_ignores_outer_space_witness :
  parse_result ("  " ++ "a = 1/2" ++ " ") = parse_result "a = 1/2".
Proof.
  apply (parse_result_ignores_outer_space "  " "a = 1/2" " "); reflexivity.
Defined.

(** ** Decimal numerals *)

Module DecFacts.

Local Open Scope Z_scope.

(** The value of a big-endian numeral, continuing from [acc]. *)
Fixpoint val (acc : Z) (d : Decimal.uint) : Z :=
  match d with
  | Decimal.Nil => acc
  | Decimal.D0 d => val (10 * acc + 0) d
  | Decimal.D1 d => val (10 * acc + 1) d
  | Decimal.D2 d => val (10 * acc + 2) d
  | Decimal.D3 d => val (10 * acc + 3) d
  | Decimal.D4 d => val (10 * acc + 4) d
  | Decimal.D5 d => val (10 * acc + 5) d
  | Decimal.D6 d => val (10 * acc + 6) d
  | Decimal.D7 d => val (10 * acc + 7) d
  | Decimal.D8 d => val (10 * acc + 8) d
  | Decimal.D9 d => val (10 * acc + 9) d
  end.

Definition step (acc : Z) (ch : ascii) : Z := 10 * acc + (Z.of_nat (nat_of_ascii ch) - 48).

Lemma fold_string_of_uint : forall u acc,
  fold_left step (list_ascii_of_string (NilEmpty.string_of_uint u)) acc = val acc u.
Proof.
  induction u; intro acc; simpl; try reflexivity; rewrite IHu; reflexivity.
Qed.

Lemma val_shift : forall u acc,
  val acc u = acc * 10 ^ Z.of_nat (Decimal.nb_digits u) + val 0 u.
Proof.
  induction u; intro acc; cbn [Decimal.nb_digits val]; [ simpl; lia | .. ].
  all: rewrite Nat2Z.inj_succ, Z.pow_succ_r by lia.
  all: rewrite (IHu (10 * acc + _)).
  all: rewrite (IHu (10 * 0 + _)).
  all: generalize (10 ^ Z.of_nat (Decimal.nb_digits u)) (val 0 u); intros P V; ring.
Qed.

Lemma val_of_uint_acc : forall u acc, Z.pos (Pos.of_uint_acc u acc) = val (Z.pos acc) u.
Proof.
  induction u; intro acc; cbn [Pos.of_uint_acc val]; [ reflexivity | .. ];
    rewrite IHu; f_equal; lia.
Qed.

Lemma val_of_uint : forall u, val 0 u = Z.of_uint u.
Proof.
  unfold Z.of_uint.
  induction u; cbn [Pos.of_uint val]; [ reflexivity | exact IHu | .. ];
    cbn [Z.of_N]; rewrite val_of_uint_acc; reflexivity.
Qed.

Lemma digits_string_of_uint : forall u,
  StrFacts.digits (NilEmpty.string_of_uint u) = true.
Proof.
  unfold StrFacts.digits. induction u; simpl; auto.
Qed.

(** [str(n)] of a non-negative integer: a non-empty string of digits that
    [int] reads back as [n]. *)
Lemma of_int_digits : forall n, 0 <= n ->
  StrFacts.digits (Str.of_int n) = true /\ Str.of_int n <> ""%string /\
  Str.int_of_digits (Str.of_int n) = n.
Proof.
  intros n Hn. unfold Str.of_int.
  pose proof (DecimalZ.of_to n) as Hof.
  destruct (Z.to_int n) as [u|u] eqn:E.
  - simpl in Hof. unfold NilZero.string_of_int, NilZero.string_of_uint.
    destruct u; try (split; [ vm_compute; reflexivity | split; [ discriminate | ] ];
                     rewrite <- Hof; reflexivity);
      (split; [ apply digits_string_of_uint | split; [ discriminate | ] ];
       unfold Str.int_of_digits;
       match goal with |- fold_left _ (list_ascii_of_string (NilEmpty.string_of_uint ?w)) _ = _ =>
         change (fold_left step (list_ascii_of_string (NilEmpty.string_of_uint w)) 0 = n);
         rewrite fold_string_of_uint, val_of_uint; exact Hof
       end).
  - exfalso. destruct n; simpl in E; try discriminate. lia.
Qed.

End DecFacts.

(** ** The fraction pattern *)

Lemma string_app_nil_r : forall s : string, s ++ "" = s.
Proof. induction s; simpl; congruence. Qed.


Lemma stops_digit_space_app : forall w t,
  space w = true -> stops Str.is_digit t = true -> stops Str.is_digit (w ++ t) = true.
Proof.
  intros [|ch w] t H Ht; simpl in *; [ assumption | ].
  apply andb_true_iff in H. destruct H as [H _].
  destruct (Str.is_digit ch) eqn:E; [ | reflexivity ].
  rewrite (digit_not_space _ E) in H. discriminate.
Qed.

Lemma stops_space_digits : forall g, digits g = true -> stops Str.is_space g = true.
Proof.
  intros [|ch g] H; simpl in *; [ reflexivity | ].
  apply andb_true_iff in H. destruct H as [H _].
  rewrite (digit_not_space _ H). reflexivity.
Qed.

(** The strings the pattern [(\d+)\s*/\s*(\d+)] matches in full, and the two
    groups it captures. *)
Lemma match_fraction_complete : forall g1 w3 w4 g2,
  digits g1 = true -> g1 <> "" -> space w3 = true -> space w4 = true ->
  digits g2 = true -> g2 <> "" ->
  Str.match_fraction (g1 ++ w3 ++ String "/" (w4 ++ g2)) = Some (g1, g2).
Proof.
  intros g1 w3 w4 g2 D1 N1 S3 S4 D2 N2. unfold Str.match_fraction.
  rewrite (span_app Str.is_digit g1 (w3 ++ String "/" (w4 ++ g2)) D1)
    by (apply stops_digit_space_app; [ assumption | reflexivity ]).
  destruct g1 as [|c1 g1']; [ congruence | ].
  rewrite (span_app Str.is_space w3 (String "/" (w4 ++ g2)) S3) by reflexivity.
  change (Ascii.eqb "/" "/") with true. cbv iota.
  rewrite (span_app Str.is_space w4 g2 S4) by (apply stops_space_digits; assumption).
  rewrite <- (string_app_nil_r g2) at 1.
  rewrite (span_app Str.is_digit g2 "" D2) by reflexivity.
  destruct g2; [ congruence | reflexivity ].
Qed.

Lemma match_fraction_sound : forall s g1 g2,
  Str.match_fraction s = Some (g1, g2) ->
  exists w3 w4,
    s = g1 ++ w3 ++ String "/" (w4 ++ g2) /\
    digits g1 = true /\ g1 <> "" /\ space w3 = true /\ space w4 = true /\
    digits g2 = true /\ g2 <> "".
Proof.
  intros s g1 g2. unfold Str.match_fraction.
  destruct (Str.span Str.is_digit s) as [a1 r1] eqn:E1.
  destruct a1 as [|c1 a1']; [ discriminate | ].
  destruct (Str.span Str.is_space r1) as [a2 r2] eqn:E2.
  destruct r2 as [|ch r3]; [ discriminate | ].
  destruct (Ascii.eqb ch "/") eqn:Ech; [ | discriminate ].
  destruct (Str.span Str.is_space r3) as [a4 r4] eqn:E4.
  destruct (Str.span Str.is_digit r4) as [a5 r5] eqn:E5.
  destruct a5 as [|c5 a5']; [ discriminate | ].
  destruct r5; [ | discriminate ].
  intro H. injection H as <- <-.
  apply Ascii.eqb_eq in Ech. subst ch.
  apply span_spec in E1, E2, E4, E5.
  destruct E1 as [-> [D1 _]]. destruct E2 as [-> [S2 _]].
  destruct E4 as [-> [S4 _]]. destruct E5 as [-> [D5 _]].
  exists a2, a4. rewrite string_app_nil_r.
  repeat split; try assumption; discriminate.
Qed.

(** X6. The pattern [(\d+)\s*/\s*(\d+)], matched in full: it accepts exactly
    the strings made of a non-empty run of digits, optional whitespace, a
    slash, optional whitespace and a non-empty run of digits, and captures the
    two runs of digits. *)
Theorem fraction_pattern_language :
  forall s g1 g2,
    Str.match_fraction s = Some (g1, g2) <->
    exists w3 w4,
      s = g1 ++ w3 ++ String "/" (w4 ++ g2) /\
      digits g1 = true /\ g1 <> "" /\ space w3 = true /\ space w4 = true /\
      digits g2 = true /\ g2 <> "".
Proof.
  intros s g1 g2. split.
  - apply match_fraction_sound.
  - intros [w3 [w4 [-> [D1 [N1 [S3 [S4 [D2 N2]]]]]]]].
    apply match_fraction_complete; assumption.
Qed.

(** ** The item parser, continued *)







Lemma stops_app : forall f s t, s <> "" -> stops f s = true -> stops f (s ++ t) = true.
Proof. intros f [|ch s] t H Hs; [ congruence | exact Hs ]. Qed.

(** X7. What [parse_result] returns is a well-formed observation: [n > 0],
    [0 <= k <= n], and a label that is not empty and has no whitespace at
    either end. *)
Theorem parse_result_sound :
  forall s r,
    parse_result s = Ok r ->
    (0 < n r)%Z /\ (0 <= k r <= n r)%Z /\
    label r <> "" /\ stops Str.is_space (label r) = true /\ ends_ok (label r) = true.
Proof.
  intros s r. unfold parse_result.
  destruct (Str.split_first "=" (Str.strip s)) as [[lab frac]|]; [ | discriminate ].
  destruct (Str.match_fraction (Str.strip frac)) as [[g1 g2]|]; [ | discriminate ].
  destruct (Str.int_of_digits g2 <=? 0)%Z eqn:En; [ discriminate | ].
  destruct ((Str.int_of_digits g1 <? 0)%Z || (Str.int_of_digits g2 <? Str.int_of_digits g1)%Z) eqn:Ek;
    [ discriminate | ].
  apply Z.leb_gt in En. apply orb_false_iff in Ek. destruct Ek as [Ek1 Ek2].
  apply Z.ltb_ge in Ek1. apply Z.ltb_ge in Ek2.
  intro H. injection H as <-. simpl.
  split; [ assumption | ]. split; [ lia | ].
  destruct (Str.strip lab) as [|ch t] eqn:El.
  - destruct (DecFacts.of_int_digits _ Ek1) as [Dk [Nk _]].
    destruct (DecFacts.of_int_digits (Str.int_of_digits g2)) as [Dn [Nn _]]; [ lia | ].
    split; [ | split ].
    + destruct (Str.of_int (Str.int_of_digits g1)); [ congruence | discriminate ].
    + apply stops_app; [ assumption | apply stops_space_digits; assumption ].
    + apply ends_ok_app; [ discriminate | ].
      change ("/" ++ Str.of_int (Str.int_of_digits g2)) with (String "/" (Str.of_int (Str.int_of_digits g2))).
      pose proof (digits_ends_ok _ Dn) as He.
      destruct (Str.of_int (Str.int_of_digits g2)); [ congruence | exact He ].
  - rewrite <- El. split; [ rewrite El; discriminate | ].
    unfold Str.strip. split.
    + apply rstrip_keeps_start, lstrip_is_stopped.
    + apply rstrip_is_ok.
Qed.

Lemma parse_result_sound_witness :
  (0 < 28)%Z /\ (0 <= 28 <= 42)%Z /\
  "Smartphone apps" <> "" /\ stops Str.is_space "Smartphone apps" = true /\
  ends_ok "Smartphone apps" = true.
Proof.
  apply (parse_result_sound "Smartphone apps=28/42" (mkResult "Smartphone apps" 28 42)).
  reflexivity.
Defined.





(** ** The process: exit status and streams *)

Lemma map_result_length : forall (A B : Type) (f : A -> result B) l l',
  map_result f l = Ok l' -> List.length l' = List.length l.
Proof.
  intros A B f l. induction l as [|x l IH]; simpl; intros l' H.
  - injection H as <-. reflexivity.
  - destruct (f x); [ | discriminate ]. simpl in H.
    destruct (map_result f l) as [ys|]; [ | discriminate ]. simpl in H.
    injection H as <-. simpl. f_equal. apply IH. reflexivity.
Qed.

Lemma map_result_first_error : forall (A B : Type) (f : A -> result B) pre x post e,
  (forall y, In y pre -> is_ok (f y) = true) ->
  f x = Raise e ->
  map_result f (pre ++ x :: post)%list = Raise e.
Proof.
  intros A B f pre x post e Hpre Hx. induction pre as [|y pre IH]; simpl.
  - rewrite Hx. reflexivity.
  - assert (Hy : is_ok (f y) = true) by (apply Hpre; left; reflexivity).
    destruct (f y); [ | discriminate ]. simpl.
    rewrite IH; [ reflexivity | ]. intros z Hz. apply Hpre. right. assumption.
Qed.


(** X11. A malformed item ends the run with status 1 and the parser's message
    on the error stream, whatever the confidence level and the number of
    digits are: items are parsed before anything else is computed, and the
    first one that fails is the one reported. *)
Theorem main_reports_first_bad_item :
  forall ln args pre s post e,
    as_percent args && as_prop args = false ->
    results args = (pre ++ s :: post)%list ->
    (forall x, In x pre -> is_ok (parse_result x) = true) ->
    parse_result s = Raise e ->
    main ln args = mkOutcome [] [traceback e] 1.
Proof.
  intros ln args pre s post e Hflags Hres Hpre Hs.
  unfold main. rewrite Hflags. unfold render.
  rewrite Hres, (map_result_first_error _ _ parse_result pre s post e Hpre Hs).
  reflexivity.
Qed.

Lemma main_reports_first_bad_item_witness :
  main RefLog.ln_ref (mkArgs ["a=1/2"; "b 3/4"; "c=9/8"] nan (-1) false false)
  = mkOutcome [] [traceback (ValueError "Missing '=' in 'b 3/4'. Expected format: Label=k/n")] 1.
Proof.
  apply (main_reports_first_bad_item RefLog.ln_ref
           (mkArgs ["a=1/2"; "b 3/4"; "c=9/8"] nan (-1) false false)
           ["a=1/2"] "b 3/4" ["c=9/8"]).
  - reflexivity.
  - reflexivity.
  - intros x [<-|[]]. reflexivity.
  - reflexivity.
Defined.

(** ** The table layout *)

Module Layout.

(** Every cell is at most as long as its column is wide, and there is one cell
    per column. *)
Definition fits (ws : list nat) (cells : list string) : Prop :=
  Forall2 (fun w cell => String.length cell <= w)%nat ws cells.

(** The length of a printed row: the columns and two spaces between them. *)
Fixpoint width (ws : list nat) : nat :=
  match ws with
  | [] => 0
  | [w] => w
  | w :: ws' => w + 2 + width ws'
  end.

Lemma length_app : forall s t, String.length (s ++ t) = (String.length s + String.length t)%nat.
Proof. induction s as [|ch s IH]; intro t; simpl; [ reflexivity | rewrite IH; reflexivity ]. Qed.

Lemma length_repeat : forall ch m, String.length (Str.repeat ch m) = m.
Proof. induction m as [|m IH]; simpl; congruence. Qed.

Lemma length_ljust : forall s w, (String.length s <= w)%nat -> String.length (Str.ljust s w) = w.
Proof.
  intros s w H. unfold Str.ljust. rewrite length_app, length_repeat. lia.
Qed.

Lemma print_row_length : forall ws cells,
  fits ws cells -> String.length (print_row ws cells) = width ws.
Proof.
  unfold print_row, Str.join. intros ws cells H.
  induction H as [|w cell ws cells Hw H IH]; [ reflexivity | ].
  cbn [justify].
  destruct H as [|w' cell' ws' cells' Hw' H'].
  - cbn [justify String.concat width]. apply length_ljust; assumption.
  - cbn [justify] in IH |- *. cbn [String.concat width] in IH |- *.
    rewrite !length_app, length_ljust by assumption.
    cbn [String.length]. rewrite <- IH.
    destruct (justify ws' cells'); simpl; lia.
Qed.

Lemma fits_widen : forall ws cells,
  List.length cells = List.length ws -> fits (widen ws cells) cells.
Proof.
  induction ws as [|w ws IH]; intros [|cell cells] H; simpl in *; try discriminate.
  - constructor.
  - constructor; [ lia | apply IH; lia ].
Qed.

Lemma fits_widen_mono : forall ws cells other,
  fits ws cells -> fits (widen ws other) cells.
Proof.
  intros ws cells other H. revert other.
  induction H as [|w cell ws cells Hw H IH]; intros [|o other]; simpl.
  - constructor.
  - constructor.
  - constructor; assumption.
  - constructor; [ lia | apply IH ].
Qed.

Lemma length_widen : forall ws cells, List.length (widen ws cells) = List.length ws.
Proof.
  induction ws as [|w ws IH]; intros [|cell cells]; simpl; auto.
Qed.

Lemma fits_fold : forall rows ws cells,
  fits ws cells -> fits (fold_left widen rows ws) cells.
Proof.
  induction rows as [|r rows IH]; intros ws cells H; simpl; [ assumption | ].
  apply IH, fits_widen_mono; assumption.
Qed.

Lemma length_fold : forall rows ws, List.length (fold_left widen rows ws) = List.length ws.
Proof.
  induction rows as [|r rows IH]; intro ws; simpl; [ reflexivity | ].
  rewrite IH. apply length_widen.
Qed.

Lemma fits_fold_in : forall rows ws r,
  In r rows -> List.length r = List.length ws -> fits (fold_left widen rows ws) r.
Proof.
  induction rows as [|r' rows IH]; intros ws r Hin Hlen; simpl; [ destruct Hin | ].
  destruct Hin as [->|Hin].
  - apply fits_fold, fits_widen; assumption.
  - apply IH; [ assumption | rewrite length_widen; assumption ].
Qed.

Lemma fits_self : forall hd, fits (map String.length hd) hd.
Proof.
  induction hd as [|h hd IH]; simpl; constructor; [ lia | assumption ].
Qed.

Lemma fits_rule : forall ws, fits ws (map (Str.repeat "-") ws).
Proof.
  induction ws as [|w ws IH]; simpl; constructor; [ rewrite length_repeat; lia | assumption ].
Qed.

Lemma col_widths_fit : forall hd rows,
  (forall r, In r rows -> List.length r = List.length hd) ->
  fits (col_widths hd rows) hd /\
  (forall r, In r rows -> fits (col_widths hd rows) r).
Proof.
  intros hd rows Hrows. unfold col_widths. split.
  - apply fits_fold, fits_self.
  - intros r Hin. apply fits_fold_in; [ assumption | ].
    rewrite length_map. apply Hrows; assumption.
Qed.

Lemma table_line_length : forall hd rows line,
  (forall r, In r rows -> List.length r = List.length hd) ->
  In line (table hd rows) ->
  String.length line = width (col_widths hd rows).
Proof.
  intros hd rows line Hrows Hin.
  destruct (col_widths_fit hd rows Hrows) as [Hhd Hr].
  unfold table in Hin.
  destruct Hin as [<-|[<-|Hin]].
  - apply print_row_length; assumption.
  - apply print_row_length, fits_rule.
  - apply in_map_iff in Hin. destruct Hin as [r [<- Hin]].
    apply print_row_length, Hr; assumption.
Qed.

End Layout.

(** X12. The table is rectangular: when every row has as many cells as the
    header, no column is narrower than any of its cells (nothing is cut), and
    every printed line (header, rule, rows) has the same length: the sum of
    the column widths plus two spaces between columns. *)
Theorem table_is_rectangular :
  forall hd rows,
    (forall r, In r rows -> List.length r = List.length hd) ->
    Layout.fits (col_widths hd rows) hd /\
    (forall r, In r rows -> Layout.fits (col_widths hd rows) r) /\
    (forall line, In line (table hd rows) ->
       String.length line = Layout.width (col_widths hd rows)).
Proof.
  intros hd rows Hrows.
  destruct (Layout.col_widths_fit hd rows Hrows) as [Hhd Hr].
  split; [ assumption | ]. split; [ assumption | ].
  intros line Hin. apply Layout.table_line_length; assumption.
Qed.

Lemma table_is_rectangular_witness :
  Layout.fits (col_widths ["Label"; "k"] [["a"; "10"]; ["long label"; "7"]]) ["Label"; "k"] /\
  (forall r, In r [["a"; "10"]; ["long label"; "7"]] ->
     Layout.fits (col_widths ["Label"; "k"] [["a"; "10"]; ["long label"; "7"]]) r) /\
  (forall line, In line (table ["Label"; "k"] [["a"; "10"]; ["long label"; "7"]]) ->
     String.length line
     = Layout.width (col_widths ["Label"; "k"] [["a"; "10"]; ["long label"; "7"]])).
Proof.
  apply (table_is_rectangular ["Label"; "k"] [["a"; "10"]; ["long label"; "7"]]).
  intros r [<-|[<-|[]]]; reflexivity.
Defined.






(** ** The number of decimals *)

Lemma format_fixed_bad_digits : forall x dg,
  (dg < 0 \/ 2147483647 < dg)%Z -> is_ok (Fmt.format_fixed x dg) = false.
Proof.
  intros x dg H. unfold Fmt.format_fixed.
  destruct (dg <? 0)%Z eqn:E1; [ reflexivity | ].
  destruct (2147483647 <? dg)%Z eqn:E2; [ reflexivity | ].
  apply Z.ltb_ge in E1. apply Z.ltb_ge in E2. lia.
Qed.

Lemma row_bad_digits : forall ln items cf dg pct prp up r,
  (dg < 0 \/ 2147483647 < dg)%Z ->
  is_ok (row ln (mkArgs items cf dg pct prp) up r) = false.
Proof.
  intros ln items cf dg pct prp up r H. unfold row. cbn.
  destruct (wilson_ci ln (k r) (n r) cf) as [[lo hi]|]; [ | reflexivity ].
  simpl.
  destruct (Py.int_truediv (k r) (n r)) as [phat|]; [ | reflexivity ]. simpl.
  pose proof (format_fixed_bad_digits phat dg H) as H1.
  pose proof (format_fixed_bad_digits (phat * 100)%float dg H) as H2.
  unfold Fmt.fmt_percent.
  destruct up.
  - destruct (Fmt.format_fixed phat dg); [ discriminate | reflexivity ].
  - destruct (Fmt.format_fixed (phat * 100)%float dg); [ discriminate | reflexivity ].
Qed.

(** X14. The number of decimals is never checked before it is used in a
    format specification: with [--digits] negative (or beyond [INT_MAX]) no
    run succeeds, whatever the items are; nothing is printed on standard
    output, and the status is 1, or 2 when the flags conflict. *)
Theorem main_fails_on_bad_digits :
  forall ln items cf dg pct prp,
    (dg < 0 \/ 2147483647 < dg)%Z ->
    items <> [] ->
    status (main ln (mkArgs items cf dg pct prp)) = (if pct && prp then 2 else 1)%Z /\
    stdout (main ln (mkArgs items cf dg pct prp)) = [].
Proof.
  intros ln items cf dg pct prp Hd Hne. unfold main. cbn [as_percent as_prop].
  destruct (pct && prp); [ split; reflexivity | ].
  destruct (render ln (mkArgs items cf dg pct prp)) as [lines|e] eqn:E;
    [ exfalso | split; reflexivity ].
  unfold render in E. cbn [results as_prop] in E.
  destruct (map_result parse_result items) as [parsed|] eqn:E1; [ | discriminate ].
  simpl in E.
  destruct (header (mkArgs items cf dg pct prp) prp) as [hd|]; [ | discriminate ]. simpl in E.
  destruct parsed as [|r parsed].
  - apply map_result_length in E1. destruct items; [ congruence | discriminate ].
  - simpl in E.
    pose proof (row_bad_digits ln items cf dg pct prp prp r Hd) as Hr.
    destruct (row ln (mkArgs items cf dg pct prp) prp r); [ discriminate | discriminate ].
Qed.

Lemma main_fails_on_bad_digits_witness :
  status (main RefLog.ln_ref (mkArgs ["a=1/2"] 0.95%float (-1) false false)) = 1%Z /\
  stdout (main RefLog.ln_ref (mkArgs ["a=1/2"] 0.95%float (-1) false false)) = [].
Proof.
  apply (main_fails_on_bad_digits RefLog.ln_ref ["a=1/2"] 0.95%float (-1)%Z false false).
  - left. reflexivity.
  - discriminate.
Defined.
